(** * The Percent Composition Lab: the derivation pipeline of [src/App.tsx]

    A shallow embedding of the state and of the pure derivations of the
    [App] component: the element table [ELEMENTS], the two pieces of React
    state ([mode] and [inputs]), the handlers [handleInputChange],
    [resetInputs] and [setMode], the memoised values [elementMasses],
    [totalMass], [percentages] and [chartData], and the state-dependent
    parts of the markup: [fillHeight], the value of the input fields, the
    layers of the beaker, the pie chart, the list of percentages and the
    worked fractions.

    Numbers.  A JavaScript [number] is modelled by [number]: the special
    values [NaN], [+Infinity], [-Infinity], and the finite values, which are
    exact canonical rationals ([Qc]).  Finite arithmetic is therefore exact
    (no rounding, no overflow), and the two IEEE zeros are one value; the
    special values keep the behaviour the source depends on ([isNaN],
    [x || 0], [x > 0], [Math.max], and division by an infinite total).
    The properties below are stated through order, sign, the special
    values and the bound [Number.MAX_VALUE], and where a sum is compared
    with 100 through a tolerance, so that they do not rest on the finite
    arithmetic being exact: a double that overflowed is an infinity, and
    the hypotheses that ask for a finite value say so.

    Strings are sequences of 8-bit code units. *)

From Stdlib Require Import ZArith QArith Qcanon Ascii String List Bool Lia.
From stdpp Require Import gmap strings.

Local Open Scope string_scope.
Local Open Scope list_scope.

(** ** JavaScript numbers *)

Inductive number : Type :=
| NaN
| PosInf
| NegInf
| Fin (q : Qc).

Definition qc (q : Q) : Qc := Q2Qc q.

Definition zero : number := Fin (qc 0).
Definition hundred : number := Fin (qc 100).

Definition is_zero (q : Qc) : bool :=
  match (q ?= qc 0)%Qc with Eq => true | _ => false end.

Definition is_neg (q : Qc) : bool :=
  match (q ?= qc 0)%Qc with Lt => true | _ => false end.

Definition Qc_ltb (a b : Qc) : bool :=
  match (a ?= b)%Qc with Lt => true | _ => false end.

Definition signed_inf (neg : bool) : number :=
  if neg then NegInf else PosInf.

(** [isNaN(x)] *)
Definition isNaN (x : number) : bool :=
  match x with NaN => true | _ => false end.

(** [x < y]; every comparison with [NaN] is false. *)
Definition js_lt (x y : number) : bool :=
  match x, y with
  | NaN, _ | _, NaN => false
  | Fin a, Fin b => Qc_ltb a b
  | NegInf, NegInf => false
  | NegInf, _ => true
  | _, NegInf => false
  | PosInf, _ => false
  | Fin _, PosInf => true
  end.

(** [x > y] *)
Definition js_gt (x y : number) : bool := js_lt y x.

(** [x + y] *)
Definition js_add (x y : number) : number :=
  match x, y with
  | NaN, _ | _, NaN => NaN
  | Fin a, Fin b => Fin (a + b)%Qc
  | PosInf, NegInf | NegInf, PosInf => NaN
  | PosInf, _ | _, PosInf => PosInf
  | NegInf, _ | _, NegInf => NegInf
  end.

(** [x * y]; zero times an infinity is [NaN]. *)
Definition js_mul (x y : number) : number :=
  match x, y with
  | NaN, _ | _, NaN => NaN
  | Fin a, Fin b => Fin (a * b)%Qc
  | Fin a, PosInf | PosInf, Fin a =>
      if is_zero a then NaN else signed_inf (is_neg a)
  | Fin a, NegInf | NegInf, Fin a =>
      if is_zero a then NaN else signed_inf (negb (is_neg a))
  | PosInf, PosInf | NegInf, NegInf => PosInf
  | PosInf, NegInf | NegInf, PosInf => NegInf
  end.

(** [x / y]; [0/0] and [Infinity/Infinity] are [NaN], a nonzero finite
    value over zero is an infinity, a finite value over an infinity is 0. *)
Definition js_div (x y : number) : number :=
  match x, y with
  | NaN, _ | _, NaN => NaN
  | Fin a, Fin b =>
      if is_zero b
      then (if is_zero a then NaN else signed_inf (is_neg a))
      else Fin (a / b)%Qc
  | Fin _, PosInf | Fin _, NegInf => zero
  | PosInf, Fin b => signed_inf (is_neg b)
  | NegInf, Fin b => signed_inf (negb (is_neg b))
  | _, _ => NaN
  end.

(** [Math.max(x, y)] *)
Definition Math_max (x y : number) : number :=
  match x, y with
  | NaN, _ | _, NaN => NaN
  | _, _ => if js_lt x y then y else x
  end.

(** Truthiness of a number: [0] and [NaN] are falsy. *)
Definition truthy (x : number) : bool :=
  match x with
  | NaN => false
  | Fin q => negb (is_zero q)
  | _ => true
  end.

(** [v || 0], where [v] is a property read ([None] is [undefined]). *)
Definition or_zero (v : option number) : number :=
  match v with
  | Some x => if truthy x then x else zero
  | None => zero
  end.

(** [ToNumber] of a property read: [undefined] becomes [NaN]. *)
Definition to_number (v : option number) : number :=
  match v with
  | Some x => x
  | None => NaN
  end.

(** ** [parseFloat] *)

Definition is_space (c : ascii) : bool :=
  let n := N_of_ascii c in
  ((n =? 9) || (n =? 10) || (n =? 11) || (n =? 12) || (n =? 13)
   || (n =? 32) || (n =? 160))%N.

Fixpoint trim_start (s : string) : string :=
  match s with
  | String c r => if is_space c then trim_start r else s
  | EmptyString => s
  end.

Definition digit_of (c : ascii) : option Z :=
  let n := Z.of_N (N_of_ascii c) in
  if ((48 <=? n) && (n <=? 57))%Z then Some (n - 48)%Z else None.

(** The longest run of decimal digits at the start of [s]: its value
    (continuing from [acc]), its length, and what follows it. *)
Fixpoint span_digits (s : string) (acc : Z) (len : Z) : Z * Z * string :=
  match s with
  | String c r =>
      match digit_of c with
      | Some d => span_digits r (10 * acc + d)%Z (len + 1)%Z
      | None => (acc, len, s)
      end
  | EmptyString => (acc, len, s)
  end.

(** The value of an optional [ExponentPart] at the start of [s]: an [e] or
    [E], an optional sign and at least one digit; 0 when there is none. *)
Definition exponent_part (s : string) : Z :=
  match s with
  | String c r =>
      if (Ascii.eqb c "e" || Ascii.eqb c "E")%bool then
        let '(neg, r') :=
          match r with
          | String "+" r2 => (false, r2)
          | String "-" r2 => (true, r2)
          | _ => (false, r)
          end in
        let '(v, len, _) := span_digits r' 0%Z 0%Z in
        if (len =? 0)%Z then 0%Z else if neg then (- v)%Z else v
      else 0%Z
  | EmptyString => 0%Z
  end.

(** The longest prefix of [s] that is a [StrUnsignedDecimalLiteral], as
    its value; [None] when no prefix is one. *)
Definition unsigned_literal (s : string) : option number :=
  if String.prefix "Infinity" s then Some PosInf else
  let '(ip, ni, r1) := span_digits s 0%Z 0%Z in
  match r1 with
  | String "." r2 =>
      let '(m, nf, r3) := span_digits r2 ip 0%Z in
      if (ni + nf =? 0)%Z then None
      else Some (Fin (qc (inject_Z m * Qpower 10 (exponent_part r3 - nf))))
  | _ =>
      if (ni =? 0)%Z then None
      else Some (Fin (qc (inject_Z ip * Qpower 10 (exponent_part r1))))
  end.

Definition js_neg (x : number) : number :=
  match x with
  | NaN => NaN
  | PosInf => NegInf
  | NegInf => PosInf
  | Fin q => Fin (- q)%Qc
  end.

Definition parseFloat (s : string) : number :=
  match trim_start s with
  | String "-" r =>
      match unsigned_literal r with Some x => js_neg x | None => NaN end
  | String "+" r =>
      match unsigned_literal r with Some x => x | None => NaN end
  | t =>
      match unsigned_literal t with Some x => x | None => NaN end
  end.

(** ** The element table *)

Inductive Mode : Type := mass | molar.

Record ElementData : Type := {
  id : string;
  name : string;
  color : string;
  atomicMass : number;
  bgColor : string
}.

Definition ELEMENTS : list ElementData := [
  {| id := "C"; name := "Carbon"; color := "#1f2937";
     bgColor := "bg-gray-800"; atomicMass := Fin (qc 12.011) |};
  {| id := "H"; name := "Hydrogen"; color := "#60a5fa";
     bgColor := "bg-blue-400"; atomicMass := Fin (qc 1.008) |};
  {| id := "O"; name := "Oxygen"; color := "#ef4444";
     bgColor := "bg-red-500"; atomicMass := Fin (qc 15.999) |};
  {| id := "N"; name := "Nitrogen"; color := "#f59e0b";
     bgColor := "bg-amber-500"; atomicMass := Fin (qc 14.007) |}
].

(** ** Objects built key by key

    [masses] and [percs] are objects filled by assignment and then read by
    key or through [Object.values], which lists the values in the order
    the keys were first assigned (the keys here are element symbols, none
    of which is an array index). *)

Definition jsobj : Type := list (string * number).

Fixpoint obj_set (k : string) (v : number) (o : jsobj) : jsobj :=
  match o with
  | [] => [(k, v)]
  | (k', v') :: o' =>
      if String.eqb k' k then (k', v) :: o' else (k', v') :: obj_set k v o'
  end.

Fixpoint obj_get (o : jsobj) (k : string) : option number :=
  match o with
  | [] => None
  | (k', v') :: o' => if String.eqb k' k then Some v' else obj_get o' k
  end.

Definition Object_values (o : jsobj) : list number := map snd o.

(** ** Component state and handlers *)

Record AppState : Type := {
  mode : Mode;
  inputs : gmap string number
}.

(** [useState('mass')] and [useState({ C: 0, H: 0, O: 0, N: 0 })] *)
Definition no_inputs : gmap string number :=
  <["N" := zero]> (<["O" := zero]> (<["H" := zero]> (<["C" := zero]> ∅))).

Definition initial : AppState := {| mode := mass; inputs := no_inputs |}.

(** The updater passed to [setInputs] in [handleInputChange]. *)
Definition clamp (num : number) : number :=
  if isNaN num then zero else Math_max zero num.

Definition handleInputChange (i : string) (value : string) (st : AppState)
  : AppState :=
  let num := parseFloat value in
  {| mode := mode st; inputs := <[i := clamp num]> (inputs st) |}.

Definition resetInputs (st : AppState) : AppState :=
  {| mode := mode st; inputs := no_inputs |}.

Definition setMode (m : Mode) (st : AppState) : AppState :=
  {| mode := m; inputs := inputs st |}.

(** ** Derived values *)

Definition elementMasses (st : AppState) : jsobj :=
  fold_left
    (fun masses el =>
       let val := or_zero (inputs st !! id el) in
       obj_set (id el)
         (match mode st with
          | mass => val
          | molar => js_mul val (atomicMass el)
          end)
         masses)
    ELEMENTS [].

Definition totalMass (st : AppState) : number :=
  fold_left (fun sum m => js_add sum m) (Object_values (elementMasses st)) zero.

Definition percentages (st : AppState) : jsobj :=
  fold_left
    (fun percs el =>
       obj_set (id el)
         (if js_gt (totalMass st) zero
          then js_mul
                 (js_div (to_number (obj_get (elementMasses st) (id el)))
                         (totalMass st))
                 hundred
          else zero)
         percs)
    ELEMENTS [].

Module ChartEntry.
Record t : Type := {
  name : string;
  value : option number;
  color : string
}.
End ChartEntry.

Definition chartData (st : AppState) : list ChartEntry.t :=
  map
    (fun el =>
       {| ChartEntry.name := name el;
          ChartEntry.value := obj_get (percentages st) (id el);
          ChartEntry.color := color el |})
    (List.filter
       (fun el => js_gt (to_number (obj_get (elementMasses st) (id el))) zero)
       ELEMENTS).

(** ** Sequences of user actions *)

Inductive Action : Type :=
| SetQuantity (i : string) (rawValue : string)
| SetMode (m : Mode)
| Reset.

Definition step (st : AppState) (a : Action) : AppState :=
  match a with
  | SetQuantity i raw => handleInputChange i raw st
  | SetMode m => setMode m st
  | Reset => resetInputs st
  end.

Definition run (acts : list Action) : AppState := fold_left step acts initial.

(** ** What the component renders

    The parts of the returned markup that depend on the state, as data:
    each list is the children array of one [ELEMENTS.map], where [None]
    is a [null] child (React draws nothing for it), and a branch that
    shows a placeholder paragraph instead of the list is [None].  Numbers
    that the markup prints (through a template string or [toFixed]) are
    kept as the numbers handed to the printing. *)

(** [x === y] on numbers: [NaN] equals nothing. *)
Definition js_eq (x y : number) : bool :=
  match x, y with
  | Fin a, Fin b => match (a ?= b)%Qc with Eq => true | _ => false end
  | PosInf, PosInf | NegInf, NegInf => true
  | _, _ => false
  end.

(** [v === y] for a property read [v]: [undefined] equals no number. *)
Definition js_eq_read (v : option number) (y : number) : bool :=
  match v with
  | Some x => js_eq x y
  | None => false
  end.

(** [Math.min(x, y)] *)
Definition Math_min (x y : number) : number :=
  match x, y with
  | NaN, _ | _, NaN => NaN
  | _, _ => if js_lt y x then y else x
  end.

Definition fillHeight (st : AppState) : number :=
  Math_min (js_mul (js_div (totalMass st) (Fin (qc 200))) hundred) hundred.

(** The [value] of the input of an element: [inputs[el.id] || ''], where
    [None] is the empty string. *)
Definition fieldValue (st : AppState) (el : ElementData) : option number :=
  match inputs st !! id el with
  | Some x => if truthy x then Some x else None
  | None => None
  end.

Module Layer.
Record t : Type := {
  key : string;
  backgroundColor : string;
  height : number
}.
End Layer.

(** The layers of the beaker. *)
Definition beakerLayers (st : AppState) : list (option Layer.t) :=
  map
    (fun el =>
       let layerHeight :=
         if js_gt (totalMass st) zero
         then js_mul
                (js_div (to_number (obj_get (elementMasses st) (id el)))
                        (totalMass st))
                hundred
         else zero in
       if js_eq layerHeight zero then None
       else Some {| Layer.key := id el;
                    Layer.backgroundColor := color el;
                    Layer.height := layerHeight |})
    ELEMENTS.

(** The pie chart: drawn from [chartData] when the total is positive. *)
Definition pieChart (st : AppState) : option (list ChartEntry.t) :=
  if js_gt (totalMass st) zero then Some (chartData st) else None.

Module LegendRow.
Record t : Type := {
  key : string;
  color : string;
  percentage : number
}.
End LegendRow.

(** The list of percentages beside the pie chart. *)
Definition legendRows (st : AppState) : option (list (option LegendRow.t)) :=
  if js_gt (totalMass st) zero then
    Some
      (map
         (fun el =>
            if (js_eq_read (obj_get (elementMasses st) (id el)) zero
                && js_eq (totalMass st) zero)%bool
            then None
            else
              let percentage := or_zero (obj_get (percentages st) (id el)) in
              if js_eq percentage zero then None
              else Some {| LegendRow.key := id el;
                           LegendRow.color := color el;
                           LegendRow.percentage := percentage |})
         ELEMENTS)
  else None.

Module MathRow.
Record t : Type := {
  key : string;
  name : string;
  borderColor : string;
  inputValue : number;
  atomicMass : option number;
  totalMass : number;
  percentage : number
}.
End MathRow.

(** The "Live Math Substitutions": one worked fraction per element; the
    atomic mass is part of the numerator only by molar mass. *)
Definition mathRows (st : AppState) : option (list (option MathRow.t)) :=
  if js_gt (totalMass st) zero then
    Some
      (map
         (fun el =>
            if js_eq_read (obj_get (elementMasses st) (id el)) zero then None
            else
              let percentage := or_zero (obj_get (percentages st) (id el)) in
              let inputValue := or_zero (inputs st !! id el) in
              Some {| MathRow.key := id el;
                      MathRow.name := name el;
                      MathRow.borderColor := color el;
                      MathRow.inputValue := inputValue;
                      MathRow.atomicMass :=
                        match mode st with
                        | mass => None
                        | molar => Some (atomicMass el)
                        end;
                      MathRow.totalMass := totalMass st;
                      MathRow.percentage := percentage |})
         ELEMENTS)
  else None.

(** The children that are drawn: the ones that are not [null]. *)
Fixpoint rendered {A : Type} (children : list (option A)) : list A :=
  match children with
  | [] => []
  | Some x :: r => x :: rendered r
  | None :: r => rendered r
  end.

(** ** Vocabulary of the properties *)

(** [x <= y] *)
Definition js_le (x y : number) : bool :=
  match x, y with
  | NaN, _ | _, NaN => false
  | _, _ => negb (js_lt y x)
  end.

(** Every stored quantity is [>= 0]. *)
Definition inputs_nonneg (st : AppState) : Prop :=
  map_Forall (fun _ v => js_le zero v = true) (inputs st).

(** [elementMasses[i]], [percentages[i]] read as numbers. *)
Definition massOf (st : AppState) (i : string) : number :=
  to_number (obj_get (elementMasses st) i).

Definition percentOf (st : AppState) (i : string) : number :=
  to_number (obj_get (percentages st) i).

(** The sum of the percentages of all elements, in table order. *)
Definition percentSum (st : AppState) : number :=
  fold_left js_add (Object_values (percentages st)) zero.

(** The formulas of the data model, over a stored quantity [q], a
    contribution [c] and a total [t]. *)
Definition contribution_of (m : Mode) (q : number) (el : ElementData) : number :=
  match m with
  | mass => q
  | molar => js_mul q (atomicMass el)
  end.

Definition percentage_of (c t : number) : number :=
  if js_gt t zero then js_mul (js_div c t) hundred else zero.

(** [Number.MAX_VALUE], the largest finite double, [(2^53 - 1) * 2^971]:
    a number is a finite double only if it is at most this. *)
Definition MAX_VALUE : number :=
  Fin (qc (inject_Z ((2 ^ 53 - 1) * 2 ^ 971))).


(** ** Arithmetic of the number model *)

Section NumberFacts.

Local Open Scope Qc_scope.

Lemma Qc_ltb_lt (a b : Qc) : Qc_ltb a b = true <-> a < b.
Proof.
  unfold Qc_ltb. rewrite Qclt_alt.
  destruct (a ?= b); split; intros; congruence.
Qed.

Lemma Qc_ltb_ge (a b : Qc) : Qc_ltb a b = false <-> b <= a.
Proof.
  rewrite Qcle_ngt, <- Qc_ltb_lt. destruct (Qc_ltb a b); split; intros; congruence.
Qed.

Lemma is_zero_eq (q : Qc) : is_zero q = true <-> q = 0.
Proof.
  unfold is_zero. change (qc 0) with (Q2Qc 0). rewrite Qceq_alt.
  destruct (q ?= 0); split; intros; congruence.
Qed.

Lemma is_zero_neq (q : Qc) : is_zero q = false <-> q <> 0.
Proof.
  rewrite <- is_zero_eq. destruct (is_zero q); split; intros; congruence.
Qed.

Lemma is_neg_lt (q : Qc) : is_neg q = true <-> q < 0.
Proof. apply (Qc_ltb_lt q 0). Qed.

Lemma js_le_zero_Fin (q : Qc) : js_le zero (Fin q) = true <-> 0 <= q.
Proof.
  unfold js_le, zero, js_lt. rewrite negb_true_iff. apply Qc_ltb_ge.
Qed.

Lemma js_gt_zero_Fin (q : Qc) : js_gt (Fin q) zero = true <-> 0 < q.
Proof. apply (Qc_ltb_lt 0 q). Qed.

Lemma js_le_Fin (a b : Qc) : js_le (Fin a) (Fin b) = true <-> a <= b.
Proof. unfold js_le, js_lt. rewrite negb_true_iff. apply Qc_ltb_ge. Qed.



End NumberFacts.

(** ** The derived objects, key by key *)

Lemma massOf_element (st : AppState) (el : ElementData) :
  In el ELEMENTS ->
  massOf st (id el)
  = contribution_of (mode st) (or_zero (inputs st !! id el)) el.
Proof.
  intros Hel. unfold massOf, elementMasses, contribution_of.
  repeat (destruct Hel as [<- | Hel]; [destruct (mode st); reflexivity |]).
  destruct Hel.
Qed.

Lemma totalMass_sum (st : AppState) :
  totalMass st
  = js_add (js_add (js_add (js_add zero (massOf st "C")) (massOf st "H"))
                   (massOf st "O"))
           (massOf st "N").
Proof. reflexivity. Qed.

Lemma percentages_lookup (st : AppState) (el : ElementData) :
  In el ELEMENTS ->
  obj_get (percentages st) (id el)
  = Some (percentage_of (massOf st (id el)) (totalMass st)).
Proof.
  intros Hel. unfold percentages, percentage_of, massOf.
  repeat (destruct Hel as [<- | Hel]; [reflexivity |]).
  destruct Hel.
Qed.

Lemma percentOf_element (st : AppState) (el : ElementData) :
  In el ELEMENTS ->
  percentOf st (id el) = percentage_of (massOf st (id el)) (totalMass st).
Proof.
  intros Hel. unfold percentOf. rewrite percentages_lookup by assumption.
  reflexivity.
Qed.


Lemma atomicMass_pos (el : ElementData) :
  In el ELEMENTS -> exists am : Qc, atomicMass el = Fin am /\ (0 < am)%Qc.
Proof.
  intros Hel.
  repeat (destruct Hel as [<- | Hel]; [eexists; split; [reflexivity | reflexivity] |]).
  destruct Hel.
Qed.

(** ** Non-negative and finite quantities *)

Section Quantities.

Local Open Scope Qc_scope.

Lemma Fin_inj (a b : Qc) : Fin a = Fin b -> a = b.
Proof.
  intros H. exact (f_equal (fun x => match x with Fin q => q | _ => a end) H).
Qed.

Lemma Fin_eq (a b : Qc) : (a == b)%Q -> Fin a = Fin b.
Proof. intros H. f_equal. apply Qc_is_canon, H. Qed.

Lemma nonneg_cases (x : number) :
  js_le zero x = true -> x = PosInf \/ exists q : Qc, x = Fin q /\ 0 <= q.
Proof.
  destruct x as [| | | q]; try discriminate; intros H.
  - left; reflexivity.
  - right. exists q. split; [reflexivity | apply js_le_zero_Fin, H].
Qed.

Lemma or_zero_nonneg (v : option number) :
  (forall x, v = Some x -> js_le zero x = true) ->
  js_le zero (or_zero v) = true.
Proof.
  intros H. destruct v as [x |]; [| reflexivity].
  simpl. destruct (truthy x); [apply H | ]; reflexivity.
Qed.

Lemma or_zero_defined (x : number) : isNaN x = false -> or_zero (Some x) = x.
Proof.
  destruct x as [| | | q]; try reflexivity; [discriminate |].
  intros _. simpl. destruct (is_zero q) eqn:E; [| reflexivity].
  apply is_zero_eq in E. subst q. reflexivity.
Qed.

Lemma lookup_nonneg (st : AppState) (i : string) :
  inputs_nonneg st -> js_le zero (or_zero (inputs st !! i)) = true.
Proof. intros H. apply or_zero_nonneg. intros x Hx. exact (H i x Hx). Qed.

Lemma massOf_nonneg (st : AppState) (el : ElementData) :
  In el ELEMENTS -> inputs_nonneg st -> js_le zero (massOf st (id el)) = true.
Proof.
  intros Hel Hst. rewrite massOf_element by assumption.
  pose proof (lookup_nonneg st (id el) Hst) as Hq.
  destruct (atomicMass_pos el Hel) as (am & Eam & Ham).
  unfold contribution_of. destruct (mode st); [exact Hq |].
  rewrite Eam.
  destruct (nonneg_cases _ Hq) as [-> | (q & -> & Hq0)]; simpl.
  - assert (Hz : is_zero am = false)
      by (apply is_zero_neq, not_eq_sym, Qclt_not_eq, Ham).
    assert (Hn : is_neg am = false)
      by (apply Qc_ltb_ge, Qclt_le_weak, Ham).
    rewrite Hz, Hn. reflexivity.
  - apply js_le_zero_Fin. rewrite <- (Qcmult_0_l am).
    apply Qcmult_le_compat_r; [assumption | apply Qclt_le_weak, Ham].
Qed.

Lemma js_add_nonneg (x y : number) :
  js_le zero x = true -> js_le zero y = true -> js_le zero (js_add x y) = true.
Proof.
  intros Hx Hy.
  destruct (nonneg_cases _ Hx) as [-> | (a & -> & Ha)];
    destruct (nonneg_cases _ Hy) as [-> | (b & -> & Hb)]; try reflexivity.
  simpl. apply js_le_zero_Fin. apply Qcplus_nonneg_nonneg; assumption.
Qed.

Lemma js_add_zero (x y : number) :
  js_le zero x = true -> js_le zero y = true ->
  js_add x y = zero -> x = zero /\ y = zero.
Proof.
  intros Hx Hy.
  destruct (nonneg_cases _ Hx) as [-> | (a & -> & Ha)];
    destruct (nonneg_cases _ Hy) as [-> | (b & -> & Hb)]; try discriminate.
  simpl. intros E. apply Fin_inj in E. change (a + b = 0) in E.
  assert (Ha0 : a = 0).
  { apply Qcle_antisym; [| assumption].
    rewrite <- E. rewrite <- (Qcplus_0_r a) at 1.
    apply Qcplus_le_compat; [apply Qcle_refl | assumption]. }
  subst a. rewrite Qcplus_0_l in E. subst b. split; reflexivity.
Qed.

End Quantities.

(** ** The clamp of [handleInputChange] and the state invariant *)

Section Clamp.

Local Open Scope Qc_scope.

Lemma clamp_cases (num : number) :
  clamp num = if (isNaN num || js_lt num zero)%bool then zero else num.
Proof.
  destruct num as [| | | q]; try reflexivity.
  unfold clamp, Math_max, zero. simpl.
  destruct (Qc_ltb (qc 0) q) eqn:Hpos, (Qc_ltb q (qc 0)) eqn:Hneg;
    try reflexivity.
  - apply Qc_ltb_lt in Hpos, Hneg.
    destruct (Qclt_not_le _ _ Hpos). apply Qclt_le_weak, Hneg.
  - apply Qc_ltb_ge in Hpos, Hneg.
    f_equal. apply Qcle_antisym; assumption.
Qed.

Lemma clamp_nonneg (num : number) : js_le zero (clamp num) = true.
Proof.
  rewrite clamp_cases.
  destruct num as [| | | q]; try reflexivity. simpl.
  destruct (Qc_ltb q (qc 0)) eqn:Hneg; [reflexivity |].
  apply js_le_zero_Fin, Qc_ltb_ge, Hneg.
Qed.

Lemma clamp_not_NaN (num : number) : isNaN (clamp num) = false.
Proof.
  pose proof (clamp_nonneg num) as H.
  destruct (clamp num); try reflexivity. discriminate.
Qed.

End Clamp.

Lemma no_inputs_lookup (i : string) (v : number) :
  no_inputs !! i = Some v -> v = zero.
Proof.
  unfold no_inputs. intros H.
  repeat (apply lookup_insert_Some in H as [[_ <-] | [_ H]]; [reflexivity |]).
  rewrite lookup_empty in H. discriminate.
Qed.

Lemma no_inputs_nonneg : map_Forall (fun _ v => js_le zero v = true) no_inputs.
Proof. intros i v H. apply no_inputs_lookup in H. subst v. reflexivity. Qed.

Lemma step_nonneg (st : AppState) (a : Action) :
  inputs_nonneg st -> inputs_nonneg (step st a).
Proof.
  unfold inputs_nonneg. intros Hst. destruct a as [i raw | m |]; simpl.
  - apply map_Forall_insert_2; [apply clamp_nonneg | exact Hst].
  - exact Hst.
  - exact no_inputs_nonneg.
Qed.

Lemma steps_nonneg (acts : list Action) (st : AppState) :
  inputs_nonneg st -> inputs_nonneg (fold_left step acts st).
Proof.
  revert st. induction acts as [| a acts IH]; intros st Hst; simpl.
  - exact Hst.
  - apply IH, step_nonneg, Hst.
Qed.

Lemma run_nonneg (acts : list Action) : inputs_nonneg (run acts).
Proof. apply steps_nonneg. exact no_inputs_nonneg. Qed.

(** ** Example states *)

(** [{C: 12, H: 4, O: 0, N: 0}], by mass. *)
Definition methane_by_mass : AppState :=
  {| mode := mass;
     inputs := <["H" := Fin (qc 4)]> (<["C" := Fin (qc 12)]> no_inputs) |}.

(** The state after typing [Infinity] into the carbon field. *)
Definition infinite_carbon : AppState := run [SetQuantity "C" "Infinity"].

Lemma methane_nonneg : inputs_nonneg methane_by_mass.
Proof.
  unfold inputs_nonneg, methane_by_mass. simpl.
  repeat (apply map_Forall_insert_2; [reflexivity |]).
  apply map_Forall_empty.
Qed.

(** ** Finite contributions and totals *)

Section FiniteStates.

Local Open Scope Qc_scope.


Lemma percentage_of_Fin (x t : Qc) :
  0 < t -> percentage_of (Fin x) (Fin t) = Fin (x / t * qc 100).
Proof.
  intros Ht. unfold percentage_of.
  replace (js_gt (Fin t) zero) with true
    by (symmetry; apply js_gt_zero_Fin, Ht).
  unfold js_div.
  replace (is_zero t) with false
    by (symmetry; apply is_zero_neq, not_eq_sym, Qclt_not_eq, Ht).
  reflexivity.
Qed.

Lemma percentage_of_Fin_div (x t : Qc) :
  0 < t ->
  js_mul (js_div (Fin x) (Fin t)) hundred = Fin (x / t * qc 100).
Proof.
  intros Ht. unfold js_div.
  replace (is_zero t) with false
    by (symmetry; apply is_zero_neq, not_eq_sym, Qclt_not_eq, Ht).
  reflexivity.
Qed.

Lemma percentage_of_zero_total (c : number) : percentage_of c zero = zero.
Proof. reflexivity. Qed.


End FiniteStates.

(** ** The claims *)

Section Claims.

Local Open Scope Qc_scope.


(** With a total of 0 every percentage is 0: the division is skipped. *)
Lemma zero_total_zero_percentages (st : AppState) (el : ElementData) :
  In el ELEMENTS -> totalMass st = zero -> percentOf st (id el) = zero.
Proof.
  intros Hel Ht. rewrite percentOf_element by exact Hel.
  rewrite Ht. apply percentage_of_zero_total.
Qed.

Lemma js_le_not_lt (x : number) : js_le zero x = true -> js_lt x zero = false.
Proof.
  destruct x; try discriminate; try reflexivity.
  unfold js_le. apply negb_true_iff.
Qed.

Lemma percentage_of_not_negative (m t : number) :
  js_le zero m = true -> js_le zero t = true ->
  js_lt (percentage_of m t) zero = false.
Proof.
  intros Hm Ht. unfold percentage_of.
  destruct (js_gt t zero) eqn:Hgt; [| reflexivity].
  destruct (nonneg_cases _ Hm) as [-> | (a & -> & Ha)];
    destruct (nonneg_cases _ Ht) as [-> | (b & -> & Hb)]; try reflexivity.
  - apply js_gt_zero_Fin in Hgt. simpl.
    replace (is_neg b) with false
      by (symmetry; apply Qc_ltb_ge, Qclt_le_weak, Hgt).
    reflexivity.
  - apply js_gt_zero_Fin in Hgt. rewrite percentage_of_Fin_div by exact Hgt.
    apply js_le_not_lt, js_le_zero_Fin.
    rewrite <- (Qcmult_0_l (qc 100)). apply Qcmult_le_compat_r.
    + unfold Qcdiv. rewrite <- (Qcmult_0_l (/ b)).
      apply Qcmult_le_compat_r;
        [assumption | apply Qclt_le_weak, Qcinv_pos, Hgt].
    + intros H; discriminate H.
Qed.

(** With non-negative quantities, finite or not, no derived value is
    negative: each contribution and the total are [>= 0], and no
    percentage is [< 0]. *)
Lemma derived_never_negative (st : AppState) (el : ElementData) :
  In el ELEMENTS -> inputs_nonneg st ->
  js_le zero (massOf st (id el)) = true
  /\ js_le zero (totalMass st) = true
  /\ js_lt (percentOf st (id el)) zero = false.
Proof.
  intros Hel Hn.
  assert (Htot : js_le zero (totalMass st) = true).
  { rewrite totalMass_sum.
    repeat apply js_add_nonneg; try reflexivity.
    - exact (massOf_nonneg st _ (or_introl eq_refl) Hn).
    - exact (massOf_nonneg st _ (or_intror (or_introl eq_refl)) Hn).
    - exact (massOf_nonneg st _
               (or_intror (or_intror (or_introl eq_refl))) Hn).
    - exact (massOf_nonneg st _
               (or_intror (or_intror (or_intror (or_introl eq_refl)))) Hn). }
  split; [apply massOf_nonneg; assumption |].
  split; [exact Htot |].
  rewrite percentOf_element by exact Hel.
  apply percentage_of_not_negative; [apply massOf_nonneg; assumption | exact Htot].
Qed.







(** C2 (failing input): after [setQuantity("C", "Infinity")] from the
    initial state the stored carbon quantity and the total are
    [Infinity], the carbon percentage is [Infinity / Infinity * 100],
    which is [NaN], and the chart receives that [NaN]. *)
Theorem infinite_quantity_gives_NaN :
  inputs infinite_carbon !! "C" = Some PosInf
  /\ totalMass infinite_carbon = PosInf
  /\ percentOf infinite_carbon "C" = NaN
  /\ map ChartEntry.value (chartData infinite_carbon) = [Some NaN].
Proof. repeat split; reflexivity. Qed.

(** C3: [handleInputChange(id, value)] stores 0 under [id] when [value]
    does not parse ([parseFloat] gives [NaN]) or parses to a negative
    number, and the parsed value itself otherwise, whatever its size;
    it is a total function.  In particular ["-5"] and ["abc"] store 0. *)
Theorem handleInputChange_stores (i raw : string) (st : AppState) :
  inputs (handleInputChange i raw st) !! i
  = Some (if (isNaN (parseFloat raw) || js_lt (parseFloat raw) zero)%bool
          then zero else parseFloat raw)
  /\ inputs (handleInputChange i "-5" st) !! i = Some zero
  /\ inputs (handleInputChange i "abc" st) !! i = Some zero.
Proof.
  unfold handleInputChange. simpl inputs.
  rewrite !lookup_insert_eq, clamp_cases.
  repeat split; reflexivity.
Qed.

(** C4: the contribution of an element is its stored quantity by mass
    and the quantity times the atomic mass by molar mass; the total is
    the sum of the four contributions; [{C: 12, H: 4}] by mass has
    total 16, 75 percent carbon and 25 percent hydrogen. *)
Theorem contribution_and_total :
  (forall (st : AppState) (el : ElementData) (q : number),
      In el ELEMENTS ->
      inputs st !! id el = Some q -> isNaN q = false ->
      obj_get (elementMasses st) (id el)
      = Some (contribution_of (mode st) q el))
  /\ (forall st : AppState,
         totalMass st
         = js_add (js_add (js_add (js_add zero (massOf st "C"))
                                  (massOf st "H"))
                          (massOf st "O"))
                  (massOf st "N"))
  /\ totalMass methane_by_mass = Fin (qc 16)
  /\ percentOf methane_by_mass "C" = Fin (qc 75)
  /\ percentOf methane_by_mass "H" = Fin (qc 25).
Proof.
  split; [| split; [exact totalMass_sum |
                    repeat split; apply Fin_eq; vm_compute; reflexivity]].
  intros st el q Hel Hq Hnan.
  pose proof (massOf_element st el Hel) as Hm.
  rewrite Hq, (or_zero_defined q Hnan) in Hm.
  unfold massOf in Hm.
  destruct (obj_get (elementMasses st) (id el)) as [m |] eqn:E.
  - simpl in Hm. rewrite Hm. reflexivity.
  - exfalso. revert E. unfold elementMasses.
    repeat (destruct Hel as [<- | Hel]; [discriminate |]).
    destruct Hel.
Qed.

(** C4, witness: carbon in [{C: 12, H: 4}] by mass. *)
Lemma contribution_and_total_witness :
  obj_get (elementMasses methane_by_mass) "C" = Some (Fin (qc 12)).
Proof.
  apply (proj1 contribution_and_total methane_by_mass
               {| id := "C"; name := "Carbon"; color := "#1f2937";
                  bgColor := "bg-gray-800"; atomicMass := Fin (qc 12.011) |}
               (Fin (qc 12))).
  - left. reflexivity.
  - reflexivity.
  - reflexivity.
Defined.

(** C5: [chartData] is the table [ELEMENTS], in its order, restricted to
    the elements whose contribution is greater than 0, each with its
    percentage; when every stored quantity is non-negative and the total
    is 0 it is empty. *)
Theorem chartData_slices (st : AppState) :
  chartData st
  = map (fun el =>
           {| ChartEntry.name := name el;
              ChartEntry.value :=
                Some (percentage_of (massOf st (id el)) (totalMass st));
              ChartEntry.color := color el |})
        (List.filter (fun el => js_gt (massOf st (id el)) zero) ELEMENTS)
  /\ (inputs_nonneg st -> totalMass st = zero -> chartData st = []).
Proof.
  split.
  - unfold chartData. apply map_ext_in. intros el Hel.
    apply filter_In in Hel as [Hel _].
    rewrite percentages_lookup by exact Hel. reflexivity.
  - intros Hn Ht.
    pose proof (massOf_nonneg st _ (or_introl eq_refl) Hn) as HC.
    pose proof (massOf_nonneg st _ (or_intror (or_introl eq_refl)) Hn) as HH.
    pose proof (massOf_nonneg st _
                  (or_intror (or_intror (or_introl eq_refl))) Hn) as HO.
    pose proof (massOf_nonneg st _
                  (or_intror (or_intror (or_intror (or_introl eq_refl)))) Hn)
      as HN.
    cbn [id] in HC, HH, HO, HN.
    rewrite totalMass_sum in Ht.
    apply js_add_zero in Ht as [Ht EN];
      [| repeat apply js_add_nonneg; (reflexivity || assumption) | assumption].
    apply js_add_zero in Ht as [Ht EO];
      [| repeat apply js_add_nonneg; (reflexivity || assumption) | assumption].
    apply js_add_zero in Ht as [Ht EH];
      [| repeat apply js_add_nonneg; (reflexivity || assumption) | assumption].
    apply js_add_zero in Ht as [_ EC]; [| reflexivity | assumption].
    unfold chartData.
    change (fun el : ElementData =>
              js_gt (to_number (obj_get (elementMasses st) (id el))) zero)
      with (fun el : ElementData => js_gt (massOf st (id el)) zero).
    cbn [List.filter ELEMENTS id]. rewrite EC, EH, EO, EN. reflexivity.
Qed.

(** C5, witness: the initial state. *)
Lemma chartData_slices_witness :
  inputs_nonneg initial /\ totalMass initial = zero /\ chartData initial = [].
Proof.
  split; [exact (run_nonneg []) |].
  split; [reflexivity |].
  apply (proj2 (chartData_slices initial)); [exact (run_nonneg []) | reflexivity].
Defined.

(** C6: every stored quantity is [>= 0] in the initial state, the
    property is kept by every action, and so holds after every sequence
    of actions; a value that does not parse or is negative is replaced
    by 0 by a total function, not rejected. *)
Theorem inputs_nonneg_invariant :
  inputs_nonneg initial
  /\ (forall (st : AppState) (a : Action),
         inputs_nonneg st -> inputs_nonneg (step st a))
  /\ (forall acts : list Action, inputs_nonneg (run acts))
  /\ (forall (i raw : string) (st : AppState),
         (isNaN (parseFloat raw) || js_lt (parseFloat raw) zero)%bool = true ->
         inputs (handleInputChange i raw st) !! i = Some zero).
Proof.
  split; [exact (run_nonneg []) |].
  split; [exact step_nonneg |].
  split; [exact run_nonneg |].
  intros i raw st H. unfold handleInputChange. simpl inputs.
  rewrite lookup_insert_eq, clamp_cases, H. reflexivity.
Qed.

(** C6, witness: a negative entry typed into the initial state. *)
Lemma inputs_nonneg_invariant_witness :
  inputs_nonneg initial
  /\ inputs_nonneg (step initial (SetQuantity "O" "-2.5")).
Proof.
  split; [exact (run_nonneg []) |].
  apply (proj1 (proj2 inputs_nonneg_invariant)). exact (run_nonneg []).
Defined.

(** C7: [resetInputs] stores 0 for every element and keeps the mode;
    afterwards the total is 0 and every percentage is 0, in either
    mode. *)
Theorem resetInputs_clears (st : AppState) :
  mode (resetInputs st) = mode st
  /\ Forall (fun el => inputs (resetInputs st) !! id el = Some zero) ELEMENTS
  /\ totalMass (resetInputs st) = zero
  /\ Forall (fun el => obj_get (percentages (resetInputs st)) (id el)
                       = Some zero) ELEMENTS.
Proof.
  split; [reflexivity |].
  split; [repeat constructor |].
  destruct st as [[|] inp]; split; try reflexivity; repeat constructor.
Qed.

(** C8: [handleInputChange(id, value)] keeps the mode and the stored
    quantity of every key other than [id]. *)
Theorem handleInputChange_frame (i raw : string) (st : AppState) :
  mode (handleInputChange i raw st) = mode st
  /\ (forall j : string,
         j <> i -> inputs (handleInputChange i raw st) !! j = inputs st !! j).
Proof.
  split; [reflexivity |].
  intros j Hj. unfold handleInputChange. simpl inputs.
  apply lookup_insert_ne. congruence.
Qed.

(** C8, witness: editing carbon leaves hydrogen as it was. *)
Lemma handleInputChange_frame_witness :
  inputs (handleInputChange "C" "7" methane_by_mass) !! "H"
  = inputs methane_by_mass !! "H".
Proof.
  apply (proj2 (handleInputChange_frame "C" "7" methane_by_mass)).
  discriminate.
Defined.

(** C9: [setMode(m)] makes [m] the mode and keeps every stored quantity;
    the contributions read afterwards can differ all the same. *)
Theorem setMode_frame (m : Mode) (st : AppState) :
  mode (setMode m st) = m
  /\ inputs (setMode m st) = inputs st
  /\ massOf (setMode molar methane_by_mass) "C"
     <> massOf methane_by_mass "C".
Proof.
  split; [reflexivity |]. split; [reflexivity |].
  intros H. apply Fin_inj in H. apply (f_equal this) in H.
  vm_compute in H. discriminate.
Qed.





End Claims.

(** ** Further properties of the handlers and of the derived values *)

Section Handlers.

Local Open Scope Qc_scope.

(** X1: editing the same field twice: only the last entry counts. *)
Theorem handleInputChange_last_wins (i r1 r2 : string) (st : AppState) :
  handleInputChange i r2 (handleInputChange i r1 st)
  = handleInputChange i r2 st.
Proof.
  unfold handleInputChange. simpl. f_equal. apply insert_insert_eq.
Qed.

(** X2: edits of two different fields can be made in either order. *)
Theorem handleInputChange_commute (i j r1 r2 : string) (st : AppState) :
  i <> j ->
  handleInputChange i r1 (handleInputChange j r2 st)
  = handleInputChange j r2 (handleInputChange i r1 st).
Proof.
  intros Hij. unfold handleInputChange. simpl. f_equal.
  apply insert_insert_ne. exact Hij.
Qed.

Lemma handleInputChange_commute_witness :
  handleInputChange "C" "12" (handleInputChange "H" "4" initial)
  = handleInputChange "H" "4" (handleInputChange "C" "12" initial).
Proof. apply handleInputChange_commute. discriminate. Defined.

(** X3: what an input field shows after an edit: the parsed number when it is
    greater than 0, and nothing (the empty string) in every other case,
    a typed [0] included. *)
Theorem fieldValue_after_edit (el : ElementData) (raw : string) (st : AppState) :
  fieldValue (handleInputChange (id el) raw st) el
  = if js_gt (parseFloat raw) zero then Some (parseFloat raw) else None.
Proof.
  unfold fieldValue, handleInputChange. simpl inputs.
  rewrite lookup_insert_eq, clamp_cases.
  destruct (parseFloat raw) as [| | | q]; try reflexivity.
  unfold js_gt. simpl.
  destruct (Qc_ltb q (qc 0)) eqn:Hneg, (Qc_ltb (qc 0) q) eqn:Hpos.
  - apply Qc_ltb_lt in Hneg, Hpos.
    destruct (Qclt_not_le _ _ Hpos). apply Qclt_le_weak, Hneg.
  - reflexivity.
  - unfold truthy. replace (is_zero q) with false; [reflexivity |].
    symmetry. apply is_zero_neq, not_eq_sym, Qclt_not_eq, Qc_ltb_lt, Hpos.
  - unfold truthy. replace (is_zero q) with true; [reflexivity |].
    symmetry. apply is_zero_eq.
    apply Qc_ltb_ge in Hneg, Hpos. apply Qcle_antisym; assumption.
Qed.

Lemma elementMasses_ext (st st' : AppState) :
  mode st = mode st' ->
  (forall el, In el ELEMENTS ->
              or_zero (inputs st !! id el) = or_zero (inputs st' !! id el)) ->
  elementMasses st = elementMasses st'.
Proof.
  intros Hm Hq.
  pose proof (Hq _ (or_introl eq_refl)) as HC.
  pose proof (Hq _ (or_intror (or_introl eq_refl))) as HH.
  pose proof (Hq _ (or_intror (or_intror (or_introl eq_refl)))) as HO.
  pose proof (Hq _ (or_intror (or_intror (or_intror (or_introl eq_refl)))))
    as HN.
  cbn [id] in HC, HH, HO, HN.
  unfold elementMasses. rewrite Hm. cbn [fold_left ELEMENTS id].
  rewrite HC, HH, HO, HN. reflexivity.
Qed.

Lemma derived_from_masses (st st' : AppState) :
  elementMasses st = elementMasses st' ->
  totalMass st = totalMass st'
  /\ percentages st = percentages st'
  /\ chartData st = chartData st'
  /\ fillHeight st = fillHeight st'.
Proof.
  intros E.
  assert (T : totalMass st = totalMass st')
    by (unfold totalMass; rewrite E; reflexivity).
  assert (P : percentages st = percentages st')
    by (unfold percentages; rewrite E, T; reflexivity).
  repeat split; try assumption.
  - unfold chartData. rewrite E, P. reflexivity.
  - unfold fillHeight. rewrite T. reflexivity.
Qed.

(** X4: the derived values read the state only through its mode and through
    [inputs[id] || 0] at the four ids of the table: a missing key, a
    stored [NaN] and a stored [0] are the same to them. *)
Theorem derived_values_read_table_keys (st st' : AppState) :
  mode st = mode st' ->
  (forall el, In el ELEMENTS ->
              or_zero (inputs st !! id el) = or_zero (inputs st' !! id el)) ->
  elementMasses st = elementMasses st'
  /\ totalMass st = totalMass st'
  /\ percentages st = percentages st'
  /\ chartData st = chartData st'
  /\ fillHeight st = fillHeight st'.
Proof.
  intros Hm Hq.
  pose proof (elementMasses_ext st st' Hm Hq) as E.
  split; [exact E |]. apply derived_from_masses, E.
Qed.

Lemma derived_values_read_table_keys_witness :
  elementMasses {| mode := mass; inputs := ∅ |} = elementMasses initial.
Proof.
  apply (derived_values_read_table_keys {| mode := mass; inputs := ∅ |} initial).
  - reflexivity.
  - intros el Hel.
    repeat (destruct Hel as [<- | Hel]; [reflexivity |]). destruct Hel.
Defined.

(** X5: an edit under an id that is not in the table leaves every derived
    value as it was. *)
Theorem unknown_id_edit_is_invisible (i raw : string) (st : AppState) :
  ~ In i (map id ELEMENTS) ->
  elementMasses (handleInputChange i raw st) = elementMasses st
  /\ totalMass (handleInputChange i raw st) = totalMass st
  /\ percentages (handleInputChange i raw st) = percentages st
  /\ chartData (handleInputChange i raw st) = chartData st.
Proof.
  intros Hi.
  assert (E : elementMasses (handleInputChange i raw st) = elementMasses st).
  { apply elementMasses_ext; [reflexivity |].
    intros el Hel. unfold handleInputChange. simpl inputs.
    rewrite lookup_insert_ne; [reflexivity |].
    intros ->. apply Hi. apply in_map. exact Hel. }
  destruct (derived_from_masses _ _ E) as (T & P & C & _).
  repeat split; assumption.
Qed.

Lemma unknown_id_edit_is_invisible_witness :
  chartData (handleInputChange "S" "32" methane_by_mass)
  = chartData methane_by_mass.
Proof.
  apply (unknown_id_edit_is_invisible "S" "32" methane_by_mass).
  intros [H | [H | [H | [H | []]]]]; discriminate H.
Defined.

End Handlers.

(** ** What is drawn, and when *)

Section Display.

Local Open Scope Qc_scope.

Lemma Qc_mul_pos (a am : Qc) : 0 < am -> Qc_ltb 0 (a * am) = Qc_ltb 0 a.
Proof.
  intros Ham. destruct (Qc_ltb 0 a) eqn:Ha.
  - apply Qc_ltb_lt. apply Qc_ltb_lt in Ha.
    rewrite <- (Qcmult_0_l am). apply Qcmult_lt_compat_r; assumption.
  - apply Qc_ltb_ge. apply Qc_ltb_ge in Ha.
    rewrite <- (Qcmult_0_l am).
    apply Qcmult_le_compat_r; [assumption | apply Qclt_le_weak, Ham].
Qed.

Lemma js_gt_mul_pos (q : number) (am : Qc) :
  0 < am -> js_gt (js_mul q (Fin am)) zero = js_gt q zero.
Proof.
  intros Ham.
  assert (Hz : is_zero am = false)
    by (apply is_zero_neq, not_eq_sym, Qclt_not_eq, Ham).
  assert (Hn : is_neg am = false) by (apply Qc_ltb_ge, Qclt_le_weak, Ham).
  destruct q as [| | | a]; simpl; rewrite ?Hz, ?Hn; try reflexivity.
  apply (Qc_mul_pos a am Ham).
Qed.

(** A contribution is positive exactly when the quantity read from the
    state is, in either mode. *)
Lemma mass_pos_iff_quantity (st : AppState) (el : ElementData) :
  In el ELEMENTS ->
  js_gt (massOf st (id el)) zero = js_gt (or_zero (inputs st !! id el)) zero.
Proof.
  intros Hel. rewrite massOf_element by exact Hel.
  destruct (atomicMass_pos el Hel) as (am & Eam & Ham).
  unfold contribution_of. destruct (mode st); [reflexivity |].
  rewrite Eam. apply js_gt_mul_pos, Ham.
Qed.

Lemma chartData_filter (st : AppState) :
  chartData st
  = map (fun el =>
           {| ChartEntry.name := name el;
              ChartEntry.value := obj_get (percentages st) (id el);
              ChartEntry.color := color el |})
        (List.filter (fun el => js_gt (massOf st (id el)) zero) ELEMENTS).
Proof. reflexivity. Qed.

Lemma js_gt_add (x y : number) :
  js_le zero x = true -> js_le zero y = true ->
  js_gt (js_add x y) zero = (js_gt x zero || js_gt y zero)%bool.
Proof.
  intros Hx Hy.
  destruct (nonneg_cases _ Hx) as [-> | (a & -> & Ha)];
    destruct (nonneg_cases _ Hy) as [-> | (b & -> & Hb)];
    try reflexivity.
  - simpl. symmetry. apply orb_true_r.
  - unfold js_gt. simpl.
    destruct (Qc_ltb (qc 0) a) eqn:Ea; simpl.
    + apply Qc_ltb_lt. apply Qc_ltb_lt in Ea.
      apply Qcplus_pos_nonneg; assumption.
    + apply Qc_ltb_ge in Ea.
      assert (a = 0) as -> by (apply Qcle_antisym; assumption).
      rewrite Qcplus_0_l. reflexivity.
Qed.

(** With non-negative quantities the total is positive exactly when some
    quantity of the table is. *)
Lemma total_pos_iff_quantity (st : AppState) :
  inputs_nonneg st ->
  js_gt (totalMass st) zero
  = existsb (fun el => js_gt (or_zero (inputs st !! id el)) zero) ELEMENTS.
Proof.
  intros Hn.
  pose proof (massOf_nonneg st _ (or_introl eq_refl) Hn) as NC.
  pose proof (massOf_nonneg st _ (or_intror (or_introl eq_refl)) Hn) as NH.
  pose proof (massOf_nonneg st _
                (or_intror (or_intror (or_introl eq_refl))) Hn) as NO.
  pose proof (massOf_nonneg st _
                (or_intror (or_intror (or_intror (or_introl eq_refl)))) Hn)
    as NN.
  pose proof (mass_pos_iff_quantity st _ (or_introl eq_refl)) as PC.
  pose proof (mass_pos_iff_quantity st _ (or_intror (or_introl eq_refl)))
    as PH.
  pose proof (mass_pos_iff_quantity st _
                (or_intror (or_intror (or_introl eq_refl)))) as PO.
  pose proof (mass_pos_iff_quantity st _
                (or_intror (or_intror (or_intror (or_introl eq_refl)))))
    as PN.
  cbn [id] in NC, NH, NO, NN, PC, PH, PO, PN.
  rewrite totalMass_sum.
  rewrite !js_gt_add; try assumption;
    repeat apply js_add_nonneg; try assumption; try reflexivity.
  cbn [existsb ELEMENTS id]. rewrite PC, PH, PO, PN.
  change (js_gt zero zero) with false.
  rewrite orb_false_r. simpl. rewrite !orb_assoc. reflexivity.
Qed.

(** X6: switching the mode changes the values of the slices but never which
    elements have a slice, nor their order; with non-negative quantities
    it never makes the chart appear or disappear either. *)
Theorem setMode_keeps_slices (m : Mode) (st : AppState) :
  map (fun e => (ChartEntry.name e, ChartEntry.color e))
      (chartData (setMode m st))
  = map (fun e => (ChartEntry.name e, ChartEntry.color e)) (chartData st)
  /\ (inputs_nonneg st ->
      js_gt (totalMass (setMode m st)) zero = js_gt (totalMass st) zero).
Proof.
  split.
  - rewrite !chartData_filter, !map_map. f_equal.
    apply filter_ext_in. intros el Hel.
    rewrite !mass_pos_iff_quantity by exact Hel. reflexivity.
  - intros Hn.
    rewrite (total_pos_iff_quantity st Hn).
    rewrite (total_pos_iff_quantity (setMode m st) Hn). reflexivity.
Qed.

Lemma setMode_keeps_slices_witness :
  js_gt (totalMass (setMode molar methane_by_mass)) zero
  = js_gt (totalMass methane_by_mass) zero.
Proof.
  apply (proj2 (setMode_keeps_slices molar methane_by_mass)).
  exact methane_nonneg.
Defined.

(** X7: with non-negative quantities the pie chart is drawn exactly when it
    has at least one slice: a drawn chart is never empty, and the
    placeholder never hides a slice. *)
Theorem pieChart_drawn_iff_slices (st : AppState) :
  inputs_nonneg st ->
  match pieChart st with
  | Some slices => slices = chartData st /\ slices <> []
  | None => chartData st = []
  end.
Proof.
  intros Hn. unfold pieChart.
  rewrite (total_pos_iff_quantity st Hn).
  pose proof (mass_pos_iff_quantity st _ (or_introl eq_refl)) as PC.
  pose proof (mass_pos_iff_quantity st _ (or_intror (or_introl eq_refl)))
    as PH.
  pose proof (mass_pos_iff_quantity st _
                (or_intror (or_intror (or_introl eq_refl)))) as PO.
  pose proof (mass_pos_iff_quantity st _
                (or_intror (or_intror (or_intror (or_introl eq_refl)))))
    as PN.
  cbn [id] in PC, PH, PO, PN.
  rewrite chartData_filter.
  cbn [existsb List.filter ELEMENTS id]. rewrite PC, PH, PO, PN.
  destruct (js_gt (or_zero (inputs st !! "C")) zero),
           (js_gt (or_zero (inputs st !! "H")) zero),
           (js_gt (or_zero (inputs st !! "O")) zero),
           (js_gt (or_zero (inputs st !! "N")) zero);
    simpl; try reflexivity; (split; [reflexivity | discriminate]).
Qed.

Lemma pieChart_drawn_iff_slices_witness :
  match pieChart methane_by_mass with
  | Some slices => slices = chartData methane_by_mass /\ slices <> []
  | None => chartData methane_by_mass = []
  end.
Proof. apply pieChart_drawn_iff_slices. exact methane_nonneg. Defined.

Lemma fill_of_Fin (t : Qc) :
  js_mul (js_div (Fin t) (Fin (qc 200))) hundred = Fin (t / qc 2).
Proof.
  unfold js_div. change (is_zero (qc 200)) with false. simpl. f_equal.
  unfold Qcdiv. rewrite <- Qcmult_assoc.
  replace (/ qc 200 * qc 100) with (/ qc 2); [reflexivity |].
  apply Qc_is_canon. reflexivity.
Qed.

Lemma half_le (a b : Qc) : a <= b -> a / qc 2 <= b / qc 2.
Proof.
  intros H. unfold Qcdiv. apply Qcmult_le_compat_r; [exact H |].
  intros E; discriminate E.
Qed.

Lemma half_200 : qc 200 / qc 2 = qc 100.
Proof. apply Qc_is_canon. reflexivity. Qed.

Lemma half_0 : 0 / qc 2 = 0.
Proof. apply Qc_is_canon. reflexivity. Qed.

Lemma fillHeight_Fin (st : AppState) (t : Qc) :
  totalMass st = Fin t ->
  fillHeight st
  = if Qc_ltb (qc 100) (t / qc 2) then hundred else Fin (t / qc 2).
Proof.
  intros E. unfold fillHeight. rewrite E, fill_of_Fin. reflexivity.
Qed.

(** X8: the beaker is full from a total of 200 on: the fill level is
    exactly 100 for every total of at least 200, an infinite total
    included. *)
Theorem fillHeight_saturates (st : AppState) :
  js_le (Fin (qc 200)) (totalMass st) = true -> fillHeight st = hundred.
Proof.
  destruct (totalMass st) as [| | | t] eqn:E; try discriminate.
  - intros _. unfold fillHeight. rewrite E. reflexivity.
  - intros Ht. apply js_le_Fin in Ht. rewrite (fillHeight_Fin st t E).
    apply half_le in Ht. rewrite half_200 in Ht.
    destruct (Qc_ltb (qc 100) (t / qc 2)) eqn:L; [reflexivity |].
    apply Qc_ltb_ge in L. unfold hundred. f_equal.
    apply Qcle_antisym; assumption.
Qed.

Lemma fillHeight_saturates_witness :
  fillHeight (run [SetQuantity "O" "500"]) = hundred.
Proof. apply fillHeight_saturates. reflexivity. Defined.

(** X9: with non-negative quantities the fill level lies between 0 and 100
    and is a number, however large or infinite the total is. *)
Theorem fillHeight_bounds (st : AppState) :
  inputs_nonneg st ->
  js_le zero (fillHeight st) = true /\ js_le (fillHeight st) hundred = true.
Proof.
  intros Hn.
  destruct (derived_never_negative st _ (or_introl eq_refl) Hn) as (_ & Ht & _).
  destruct (nonneg_cases _ Ht) as [E | (t & E & H0)].
  - unfold fillHeight. rewrite E. split; reflexivity.
  - rewrite (fillHeight_Fin st t E).
    destruct (Qc_ltb (qc 100) (t / qc 2)) eqn:L; [split; reflexivity |].
    apply Qc_ltb_ge in L. split.
    + apply js_le_zero_Fin. apply half_le in H0.
      rewrite half_0 in H0. exact H0.
    + apply js_le_Fin, L.
Qed.

Lemma fillHeight_bounds_witness :
  js_le zero (fillHeight infinite_carbon) = true
  /\ js_le (fillHeight infinite_carbon) hundred = true.
Proof. apply fillHeight_bounds. apply run_nonneg. Defined.

(** *** The four views of the composition *)

Lemma rendered_map_if {A B : Type} (p : A -> bool) (g : A -> B) (l : list A) :
  rendered (map (fun x => if p x then None else Some (g x)) l)
  = map g (List.filter (fun x => negb (p x)) l).
Proof.
  induction l as [| x l IH]; [reflexivity |].
  simpl. destruct (p x); simpl; rewrite IH; reflexivity.
Qed.

Lemma elementMasses_lookup (st : AppState) (el : ElementData) :
  In el ELEMENTS ->
  obj_get (elementMasses st) (id el) = Some (massOf st (id el)).
Proof.
  intros Hel. unfold massOf, elementMasses.
  repeat (destruct Hel as [<- | Hel]; [reflexivity |]).
  destruct Hel.
Qed.

Lemma js_gt_not_eq (x : number) : js_gt x zero = true -> js_eq x zero = false.
Proof.
  destruct x as [| | | a]; try discriminate; try reflexivity.
  intros H. apply js_gt_zero_Fin in H.
  apply (is_zero_neq a), not_eq_sym, Qclt_not_eq, H.
Qed.

Lemma js_eq_nonneg (x : number) :
  js_le zero x = true -> js_eq x zero = negb (js_gt x zero).
Proof.
  intros Hx. destruct (nonneg_cases _ Hx) as [-> | (a & -> & Ha)];
    [reflexivity |].
  destruct (js_gt (Fin a) zero) eqn:E.
  - apply js_gt_not_eq, E.
  - apply (Qc_ltb_ge 0 a) in E.
    apply (is_zero_eq a). apply Qcle_antisym; assumption.
Qed.

Lemma percentage_of_zero_mass (t : number) : percentage_of zero t = zero.
Proof.
  destruct t as [| | | b];
    try reflexivity; try (apply Fin_eq; vm_compute; reflexivity).
  destruct (js_gt (Fin b) zero) eqn:Hb.
  - apply js_gt_zero_Fin in Hb.
    change zero with (Fin 0). rewrite percentage_of_Fin by exact Hb.
    assert (E : 0 / b * qc 100 = 0)
      by (field; apply not_eq_sym, Qclt_not_eq, Hb).
    rewrite E. reflexivity.
  - unfold percentage_of. rewrite Hb. reflexivity.
Qed.

Lemma truthy_or_zero (v : number) :
  negb (js_eq (or_zero (Some v)) zero) = truthy v.
Proof.
  destruct v as [| | | q]; try reflexivity.
  simpl. destruct (is_zero q) eqn:E; [reflexivity |].
  simpl. unfold is_zero in E. change (qc 0) with (Q2Qc 0) in *.
  destruct (q ?= Q2Qc 0); try reflexivity. discriminate.
Qed.

Lemma truthy_defined (v : number) : truthy v = true -> or_zero (Some v) = v.
Proof. intros H. simpl. rewrite H. reflexivity. Qed.

(** With non-negative quantities an element whose contribution is not
    positive has a contribution of 0 and so a percentage of exactly 0. *)
Lemma no_mass_no_percentage (st : AppState) (el : ElementData) :
  In el ELEMENTS -> inputs_nonneg st ->
  js_gt (massOf st (id el)) zero = false ->
  percentage_of (massOf st (id el)) (totalMass st) = zero.
Proof.
  intros Hel Hn Hp.
  pose proof (massOf_nonneg st el Hel Hn) as H0.
  pose proof (js_eq_nonneg _ H0) as Hz. rewrite Hp in Hz.
  destruct (nonneg_cases _ H0) as [E | (a & E & _)];
    rewrite E in Hz; [discriminate |].
  apply (is_zero_eq a) in Hz. subst a. rewrite E.
  apply percentage_of_zero_mass.
Qed.

Lemma map_filter_filter {A B : Type} (p q : A -> bool) (r : B -> bool)
      (g g' : A -> B) (l : list A) :
  (forall x, In x l -> p x = (q x && r (g' x))%bool) ->
  (forall x, In x l -> p x = true -> g x = g' x) ->
  map g (List.filter p l) = List.filter r (map g' (List.filter q l)).
Proof.
  induction l as [| x l IH]; intros Hp Hg; [reflexivity |].
  assert (IH' : map g (List.filter p l)
                = List.filter r (map g' (List.filter q l))).
  { apply IH; intros y Hy; [apply Hp | apply Hg]; right; exact Hy. }
  pose proof (Hp x (or_introl eq_refl)) as Hx.
  pose proof (Hg x (or_introl eq_refl)) as Hgx.
  simpl. destruct (p x), (q x); simpl in *.
  - destruct (r (g' x)); [| discriminate].
    rewrite (Hgx eq_refl), IH'. reflexivity.
  - discriminate.
  - destruct (r (g' x)); [discriminate |]. exact IH'.
  - exact IH'.
Qed.

Lemma no_total_no_slices (st : AppState) :
  inputs_nonneg st -> js_gt (totalMass st) zero = false -> chartData st = [].
Proof.
  intros Hn Ht. rewrite (total_pos_iff_quantity st Hn) in Ht.
  rewrite chartData_filter.
  rewrite (filter_ext_in _ (fun _ => false));
    [rewrite List.filter_false; reflexivity |].
  intros el Hel. rewrite mass_pos_iff_quantity by exact Hel.
  destruct (js_gt (or_zero (inputs st !! id el)) zero) eqn:E; [| reflexivity].
  rewrite <- Ht. symmetry. apply existsb_exists. exists el. split; assumption.
Qed.

Lemma beakerLayers_eq (st : AppState) :
  beakerLayers st
  = map (fun el =>
           if js_eq (percentage_of (massOf st (id el)) (totalMass st)) zero
           then None
           else Some {| Layer.key := id el;
                        Layer.backgroundColor := color el;
                        Layer.height :=
                          percentage_of (massOf st (id el)) (totalMass st) |})
        ELEMENTS.
Proof. reflexivity. Qed.

(** X10: with non-negative quantities the layers drawn in the beaker
    are, in order, the slices of [chartData] whose percentage is not 0,
    with the same colours and the same percentages (a [NaN] percentage
    included). *)
Theorem beaker_layers_are_slices (st : AppState) :
  inputs_nonneg st ->
  map (fun l => (Layer.backgroundColor l, Some (Layer.height l)))
      (rendered (beakerLayers st))
  = List.filter (fun s => negb (js_eq (to_number (snd s)) zero))
                (map (fun e => (ChartEntry.color e, ChartEntry.value e))
                     (chartData st)).
Proof.
  intros Hn.
  rewrite beakerLayers_eq, rendered_map_if, chartData_filter, !map_map.
  apply map_filter_filter.
  - intros el Hel.
    cbn [ChartEntry.color ChartEntry.value snd].
    rewrite percentages_lookup by exact Hel. cbn [to_number].
    destruct (js_gt (massOf st (id el)) zero) eqn:Hp; [reflexivity |].
    rewrite (no_mass_no_percentage st el Hel Hn Hp). reflexivity.
  - intros el Hel _.
    cbn [Layer.backgroundColor Layer.height ChartEntry.color ChartEntry.value].
    rewrite percentages_lookup by exact Hel. reflexivity.
Qed.

Lemma beaker_layers_are_slices_witness :
  map (fun l => (Layer.backgroundColor l, Some (Layer.height l)))
      (rendered (beakerLayers infinite_carbon))
  = List.filter (fun s => negb (js_eq (to_number (snd s)) zero))
                (map (fun e => (ChartEntry.color e, ChartEntry.value e))
                     (chartData infinite_carbon)).
Proof. apply beaker_layers_are_slices. apply run_nonneg. Defined.

(** X11: in the list beside the pie chart the first test,
    [elementMasses[el.id] === 0 && totalMass === 0], never removes a row:
    the list is only built when the total is positive.  A row is dropped
    only when [percentages[el.id] || 0] is 0. *)
Theorem legend_first_test_never_fires (st : AppState) :
  legendRows st
  = if js_gt (totalMass st) zero then
      Some
        (map (fun el =>
                if js_eq (or_zero (obj_get (percentages st) (id el))) zero
                then None
                else Some {| LegendRow.key := id el;
                             LegendRow.color := color el;
                             LegendRow.percentage :=
                               or_zero (obj_get (percentages st) (id el)) |})
             ELEMENTS)
    else None.
Proof.
  unfold legendRows. destruct (js_gt (totalMass st) zero) eqn:E; [| reflexivity].
  rewrite (js_gt_not_eq _ E). f_equal. apply map_ext. intros el.
  rewrite andb_false_r. reflexivity.
Qed.

(** X12: with non-negative quantities the rows of the list beside the
    pie chart are, in order, the slices of [chartData] whose percentage
    is neither 0 nor [NaN], with the same colours and percentages; the
    placeholder is shown only when there is no slice. *)
Theorem legend_rows_are_slices (st : AppState) :
  inputs_nonneg st ->
  match legendRows st with
  | Some rows =>
      map (fun r => (LegendRow.color r, Some (LegendRow.percentage r)))
          (rendered rows)
      = List.filter (fun s => truthy (to_number (snd s)))
                    (map (fun e => (ChartEntry.color e, ChartEntry.value e))
                         (chartData st))
  | None => chartData st = []
  end.
Proof.
  intros Hn. unfold legendRows.
  destruct (js_gt (totalMass st) zero) eqn:E;
    [| apply no_total_no_slices; assumption].
  rewrite (js_gt_not_eq _ E).
  rewrite (map_ext
             (fun el =>
                if (js_eq_read (obj_get (elementMasses st) (id el)) zero
                    && false)%bool
                then None
                else
                  if js_eq (or_zero (obj_get (percentages st) (id el))) zero
                  then None
                  else Some {| LegendRow.key := id el;
                               LegendRow.color := color el;
                               LegendRow.percentage :=
                                 or_zero (obj_get (percentages st) (id el)) |})
             (fun el =>
                if js_eq (or_zero (obj_get (percentages st) (id el))) zero
                then None
                else Some {| LegendRow.key := id el;
                             LegendRow.color := color el;
                             LegendRow.percentage :=
                               or_zero (obj_get (percentages st) (id el)) |}))
    by (intros el; rewrite andb_false_r; reflexivity).
  rewrite rendered_map_if, chartData_filter, !map_map.
  apply map_filter_filter.
  - intros el Hel.
    cbn [ChartEntry.color ChartEntry.value snd].
    rewrite percentages_lookup by exact Hel. cbn [to_number].
    rewrite truthy_or_zero.
    destruct (js_gt (massOf st (id el)) zero) eqn:Hp; [reflexivity |].
    rewrite (no_mass_no_percentage st el Hel Hn Hp). reflexivity.
  - intros el Hel Hp.
    cbn [LegendRow.color LegendRow.percentage
         ChartEntry.color ChartEntry.value].
    rewrite percentages_lookup by exact Hel.
    rewrite percentages_lookup, truthy_or_zero in Hp by exact Hel.
    rewrite (truthy_defined _ Hp). reflexivity.
Qed.

Lemma legend_rows_are_slices_witness :
  match legendRows methane_by_mass with
  | Some rows =>
      map (fun r => (LegendRow.color r, Some (LegendRow.percentage r)))
          (rendered rows)
      = List.filter (fun s => truthy (to_number (snd s)))
                    (map (fun e => (ChartEntry.color e, ChartEntry.value e))
                         (chartData methane_by_mass))
  | None => chartData methane_by_mass = []
  end.
Proof. apply legend_rows_are_slices. exact methane_nonneg. Defined.

(** The numerator that a row of the worked fractions prints: the quantity
    by mass, the quantity times the atomic mass by molar mass. *)
Definition numerator (r : MathRow.t) : number :=
  match MathRow.atomicMass r with
  | None => MathRow.inputValue r
  | Some am => js_mul (MathRow.inputValue r) am
  end.

Definition mathRow_of (st : AppState) (el : ElementData) : MathRow.t :=
  {| MathRow.key := id el;
     MathRow.name := name el;
     MathRow.borderColor := color el;
     MathRow.inputValue := or_zero (inputs st !! id el);
     MathRow.atomicMass :=
       match mode st with
       | mass => None
       | molar => Some (atomicMass el)
       end;
     MathRow.totalMass := totalMass st;
     MathRow.percentage := or_zero (obj_get (percentages st) (id el)) |}.

Lemma mathRows_rendered (st : AppState) (rows : list (option MathRow.t)) :
  mathRows st = Some rows ->
  js_gt (totalMass st) zero = true
  /\ rendered rows
     = map (mathRow_of st)
           (List.filter
              (fun el =>
                 negb (js_eq_read (obj_get (elementMasses st) (id el)) zero))
              ELEMENTS).
Proof.
  unfold mathRows. destruct (js_gt (totalMass st) zero); [| discriminate].
  intros H. apply (inj Some) in H. rewrite <- H. split; [reflexivity |].
  apply (rendered_map_if
           (fun el => js_eq_read (obj_get (elementMasses st) (id el)) zero)
           (mathRow_of st)).
Qed.

Lemma numerator_is_mass (st : AppState) (el : ElementData) :
  In el ELEMENTS -> numerator (mathRow_of st el) = massOf st (id el).
Proof.
  intros Hel. rewrite massOf_element by exact Hel.
  unfold numerator, mathRow_of, contribution_of. simpl.
  destruct (mode st); reflexivity.
Qed.

(** X13: with non-negative quantities, infinite ones included, the worked
    fractions have one row per slice of [chartData], in order, with the
    element's name and colour; the placeholder is shown only when there
    is no slice. *)
Theorem mathRows_match_chart (st : AppState) :
  inputs_nonneg st ->
  match mathRows st with
  | Some rows =>
      map (fun r => (MathRow.name r, MathRow.borderColor r)) (rendered rows)
      = map (fun e => (ChartEntry.name e, ChartEntry.color e)) (chartData st)
  | None => chartData st = []
  end.
Proof.
  intros Hn. destruct (mathRows st) as [rows |] eqn:E.
  - destruct (mathRows_rendered st rows E) as [_ ->].
    rewrite chartData_filter, !map_map.
    rewrite (filter_ext_in _ (fun el => js_gt (massOf st (id el)) zero));
      [reflexivity |].
    intros el Hel. rewrite elementMasses_lookup by exact Hel.
    cbn [js_eq_read].
    rewrite (js_eq_nonneg _ (massOf_nonneg st el Hel Hn)).
    apply negb_involutive.
  - apply no_total_no_slices; [exact Hn |].
    unfold mathRows in E. destruct (js_gt (totalMass st) zero);
      [discriminate | reflexivity].
Qed.

Lemma mathRows_match_chart_witness :
  match mathRows infinite_carbon with
  | Some rows =>
      map (fun r => (MathRow.name r, MathRow.borderColor r)) (rendered rows)
      = map (fun e => (ChartEntry.name e, ChartEntry.color e))
            (chartData infinite_carbon)
  | None => chartData infinite_carbon = []
  end.
Proof. apply mathRows_match_chart. apply run_nonneg. Defined.

(** X14: every worked fraction that is shown prints the percentage that
    its own numerator and total give, numerator over total times 100,
    except that a [NaN] result is printed as 0; this holds in every
    state. *)
Theorem mathRows_show_their_fraction (st : AppState)
        (rows : list (option MathRow.t)) :
  mathRows st = Some rows ->
  Forall (fun r =>
            MathRow.percentage r
            = or_zero
                (Some (js_mul (js_div (numerator r) (MathRow.totalMass r))
                              hundred)))
         (rendered rows).
Proof.
  intros E.
  destruct (mathRows_rendered st rows E) as [Ht ->].
  apply List.Forall_forall. intros r Hr.
  apply in_map_iff in Hr as (el & <- & Hel).
  apply filter_In in Hel as [Hel _].
  rewrite numerator_is_mass by exact Hel.
  cbn [mathRow_of MathRow.percentage MathRow.totalMass].
  rewrite percentages_lookup by exact Hel.
  unfold percentage_of. rewrite Ht. reflexivity.
Qed.

Lemma mathRows_show_their_fraction_witness :
  exists rows,
    mathRows infinite_carbon = Some rows
    /\ Forall (fun r =>
                 MathRow.percentage r
                 = or_zero
                     (Some (js_mul (js_div (numerator r) (MathRow.totalMass r))
                                   hundred)))
              (rendered rows).
Proof.
  eexists. split; [reflexivity |].
  apply (mathRows_show_their_fraction infinite_carbon). reflexivity.
Defined.

End Display.

(** ** Laws of percent composition *)

Section Composition.

Local Open Scope Qc_scope.

Lemma js_add_zero_l (y : number) : js_add zero y = y.
Proof.
  destruct y as [| | | b]; try reflexivity.
  simpl. f_equal. apply Qcplus_0_l.
Qed.

Lemma js_add_zero_r (y : number) : js_add y zero = y.
Proof.
  destruct y as [| | | b]; try reflexivity.
  simpl. f_equal. apply Qcplus_0_r.
Qed.

Lemma contribution_of_zero (m : Mode) (el : ElementData) :
  In el ELEMENTS -> contribution_of m zero el = zero.
Proof.
  intros Hel. destruct m; [reflexivity |].
  repeat (destruct Hel as [<- | Hel];
          [apply Fin_eq; vm_compute; reflexivity |]).
  destruct Hel.
Qed.

Ltac other_elements Hz :=
  try (pose proof (Hz _ (or_introl eq_refl) ltac:(discriminate)) as ZC);
  try (pose proof (Hz _ (or_intror (or_introl eq_refl)) ltac:(discriminate))
        as ZH);
  try (pose proof (Hz _ (or_intror (or_intror (or_introl eq_refl)))
                     ltac:(discriminate)) as ZO);
  try (pose proof (Hz _ (or_intror (or_intror (or_intror (or_introl eq_refl))))
                     ltac:(discriminate)) as ZN);
  cbn [id] in *.

Lemma only_mass_total (st : AppState) (el : ElementData) :
  In el ELEMENTS ->
  (forall el', In el' ELEMENTS -> id el' <> id el -> massOf st (id el') = zero) ->
  totalMass st = massOf st (id el).
Proof.
  intros Hel Hz. rewrite totalMass_sum.
  destruct Hel as [<- | [<- | [<- | [<- | []]]]]; other_elements Hz;
    rewrite ?ZC, ?ZH, ?ZO, ?ZN, ?js_add_zero_l, ?js_add_zero_r; reflexivity.
Qed.

(** X15: a sample of a single element is 100 percent that element: when
    one element has a positive finite contribution (at most
    [Number.MAX_VALUE]) and every other element reads 0, in either mode,
    its percentage is exactly 100, every other percentage is 0 and
    [chartData] has the one slice. *)
Theorem single_element_is_whole (st : AppState) (el : ElementData) :
  In el ELEMENTS ->
  js_gt (massOf st (id el)) zero = true ->
  js_le (massOf st (id el)) MAX_VALUE = true ->
  (forall el', In el' ELEMENTS -> id el' <> id el ->
               or_zero (inputs st !! id el') = zero) ->
  percentOf st (id el) = hundred
  /\ (forall el', In el' ELEMENTS -> id el' <> id el ->
                  percentOf st (id el') = zero)
  /\ map ChartEntry.name (chartData st) = [name el].
Proof.
  intros Hel Hgt Hmax Hz.
  assert (Hz' : forall el', In el' ELEMENTS -> id el' <> id el ->
                            massOf st (id el') = zero).
  { intros el' Hel' Hne. rewrite massOf_element, (Hz el' Hel' Hne) by exact Hel'.
    apply contribution_of_zero, Hel'. }
  assert (Hm : exists x : Qc, massOf st (id el) = Fin x /\ 0 < x).
  { destruct (massOf st (id el)) as [| | | x]; try discriminate.
    exists x. split; [reflexivity | apply js_gt_zero_Fin, Hgt]. }
  destruct Hm as (x & Ex & Hx).
  pose proof (only_mass_total st el Hel Hz') as Et. rewrite Ex in Et.
  assert (Hx0 : x <> 0) by (apply not_eq_sym, Qclt_not_eq, Hx).
  split; [| split].
  - rewrite percentOf_element, Ex, Et, percentage_of_Fin by assumption.
    unfold hundred. f_equal. field. exact Hx0.
  - intros el' Hel' Hne.
    rewrite percentOf_element, (Hz' el' Hel' Hne), Et by assumption.
    apply percentage_of_zero_mass.
  - rewrite chartData_filter, map_map. cbn [ChartEntry.name].
    destruct Hel as [<- | [<- | [<- | [<- | []]]]]; other_elements Hz';
      cbn [List.filter ELEMENTS id map name];
      rewrite ?ZC, ?ZH, ?ZO, ?ZN, ?Hgt; reflexivity.
Qed.

Lemma single_element_is_whole_witness :
  let st := run [SetQuantity "O" "500"; SetMode molar] in
  percentOf st "O" = hundred.
Proof.
  apply (single_element_is_whole
           (run [SetQuantity "O" "500"; SetMode molar])
           {| id := "O"; name := "Oxygen"; color := "#ef4444";
              bgColor := "bg-red-500"; atomicMass := Fin (qc 15.999) |}).
  - right. right. left. reflexivity.
  - reflexivity.
  - reflexivity.
  - intros el' Hel' Hne.
    destruct Hel' as [<- | [<- | [<- | [<- | []]]]];
      try reflexivity. destruct Hne. reflexivity.
Defined.

Lemma percentages_eq (st : AppState) :
  percentages st
  = map (fun el => (id el, percentage_of (massOf st (id el)) (totalMass st)))
        ELEMENTS.
Proof. reflexivity. Qed.

(** The sum of the values of the slices handed to the pie chart. *)
Definition sliceSum (st : AppState) : number :=
  fold_left js_add
            (map (fun e => to_number (ChartEntry.value e)) (chartData st))
            zero.

Lemma fold_add_filter {A : Type} (p : A -> bool) (f : A -> number)
      (l : list A) (acc : number) :
  (forall x, In x l -> p x = false -> f x = zero) ->
  fold_left js_add (map f (List.filter p l)) acc
  = fold_left js_add (map f l) acc.
Proof.
  revert acc. induction l as [| x l IH]; intros acc H; [reflexivity |].
  simpl. destruct (p x) eqn:E; simpl.
  - apply IH. intros y Hy. apply H. right. exact Hy.
  - rewrite (H x (or_introl eq_refl) E), js_add_zero_r.
    apply IH. intros y Hy. apply H. right. exact Hy.
Qed.

(** X18: with non-negative quantities the chart leaves out only slices of
    exactly 0: the slices of [chartData] add up to the same sum as the
    percentages of all four elements. *)
Theorem slices_sum_like_percentages (st : AppState) :
  inputs_nonneg st -> sliceSum st = percentSum st.
Proof.
  intros Hn. unfold sliceSum, percentSum, Object_values.
  rewrite chartData_filter, percentages_eq, !map_map.
  cbn [ChartEntry.value snd].
  rewrite (map_ext_in
             (fun el => to_number (obj_get (percentages st) (id el)))
             (fun el => percentage_of (massOf st (id el)) (totalMass st))).
  - apply fold_add_filter. intros el Hel Hp.
    pose proof (massOf_nonneg st el Hel Hn) as H0.
    pose proof (js_eq_nonneg _ H0) as Hz. rewrite Hp in Hz.
    destruct (nonneg_cases _ H0) as [E | (a & E & _)];
      rewrite E in Hz; [discriminate |].
    apply (is_zero_eq a) in Hz. subst a. rewrite E.
    apply percentage_of_zero_mass.
  - intros el Hel. apply filter_In in Hel as [Hel _].
    rewrite percentages_lookup by exact Hel. reflexivity.
Qed.

Lemma slices_sum_like_percentages_witness :
  sliceSum methane_by_mass = percentSum methane_by_mass.
Proof. apply slices_sum_like_percentages. exact methane_nonneg. Defined.

End Composition.

(** ** Where [NaN] can come from *)

Section NaNOrigin.

Local Open Scope Qc_scope.

(** X19: with non-negative quantities no contribution and no total is
    [NaN], and a percentage is [NaN] only for an element whose
    contribution is infinite, the total being infinite with it. *)
Theorem NaN_only_from_infinite_contribution (st : AppState)
        (el : ElementData) :
  In el ELEMENTS -> inputs_nonneg st ->
  isNaN (massOf st (id el)) = false
  /\ isNaN (totalMass st) = false
  /\ (isNaN (percentOf st (id el)) = true ->
      massOf st (id el) = PosInf /\ totalMass st = PosInf).
Proof.
  intros Hel Hn.
  destruct (derived_never_negative st el Hel Hn) as (Hm & Ht & _).
  rewrite percentOf_element by exact Hel. unfold percentage_of.
  destruct (nonneg_cases _ Hm) as [-> | (x & -> & Hx)];
    destruct (nonneg_cases _ Ht) as [-> | (t & -> & H0)];
    (split; [reflexivity |]); (split; [reflexivity |]).
  - intros _. split; reflexivity.
  - destruct (js_gt (Fin t) zero); [| discriminate].
    unfold js_div. destruct (is_neg t); intros H; vm_compute in H;
      discriminate H.
  - intros H. vm_compute in H. discriminate H.
  - destruct (js_gt (Fin t) zero) eqn:G; [| discriminate].
    apply js_gt_zero_Fin in G. rewrite percentage_of_Fin_div by exact G.
    discriminate.
Qed.

Lemma NaN_only_from_infinite_contribution_witness :
  massOf infinite_carbon "C" = PosInf /\ totalMass infinite_carbon = PosInf.
Proof.
  apply (NaN_only_from_infinite_contribution infinite_carbon
           {| id := "C"; name := "Carbon"; color := "#1f2937";
              bgColor := "bg-gray-800"; atomicMass := Fin (qc 12.011) |}
           (or_introl eq_refl) (run_nonneg _)).
  reflexivity.
Defined.

End NaNOrigin.
